(** * UNIKIE-BENCH: the structured-extraction evaluation engine

    A shallow embedding of [src/kie_evaluator.py] and of the record loading
    and cross-dataset aggregation of [src/evaluate_results.py], with the
    properties of the evaluation engine stated and proved over it.

    Conventions of the embedding:
    - a Python [str] is the list of its Unicode code points ([list N]);
    - a Python [dict] is an association list in insertion order, read with
      [dict_get] (first binding) and written with [dict_set] (update in
      place, or append); keys are compared structurally, which is Python's
      equality on strings;
    - a Python [float] that is part of a JSON tree is kept abstract (a type
      [F] with its [str()] text, truth value and decidable equality);
    - the floating-point scores are computed as exact rationals ([Q]). *)

From Stdlib Require Import QArith.
From Stdlib Require Import String Ascii.
From stdpp Require Import base decidable option list numbers sorting.

#[local] Set Warnings "-register-all".
#[local] Open Scope N_scope.
#[local] Open Scope list_scope.

(** ** Python strings *)

Abbreviation str := (list N).

(** [lit s] is the Python string written with the ASCII characters of [s]. *)
Definition lit (s : string) : str := N_of_ascii <$> list_ascii_of_string s.

(** [str.isspace] on one character, which is also what [\s] matches in a
    [str] pattern of the [re] module. *)
Definition isspace (c : N) : bool :=
  ((0x09 <=? c) && (c <=? 0x0D)) || ((0x1C <=? c) && (c <=? 0x20))
  || (c =? 0x85) || (c =? 0xA0) || (c =? 0x1680)
  || ((0x2000 <=? c) && (c <=? 0x200A))
  || (c =? 0x2028) || (c =? 0x2029) || (c =? 0x202F) || (c =? 0x205F)
  || (c =? 0x3000).

(** [s.lstrip(chars)], [s.rstrip(chars)] and [s.strip(chars)], the set
    [chars] given as a predicate. *)
Fixpoint lstrip_by (p : N -> bool) (s : str) : str :=
  match s with
  | [] => []
  | c :: s' => if p c then lstrip_by p s' else s
  end.

Fixpoint rstrip_by (p : N -> bool) (s : str) : str :=
  match s with
  | [] => []
  | c :: s' =>
      match rstrip_by p s' with
      | [] => if p c then [] else [c]
      | r => c :: r
      end
  end.

Definition strip_by (p : N -> bool) (s : str) : str :=
  rstrip_by p (lstrip_by p s).

(** [s.strip()] *)
Definition strip (s : str) : str := strip_by isspace s.

(** Truth value of a string: [bool(s)]. *)
Definition str_bool (s : str) : bool :=
  match s with [] => false | _ => true end.

(** [str(n)] for an [int]. *)
Fixpoint digits (d : Decimal.uint) : str :=
  match d with
  | Decimal.Nil => []
  | Decimal.D0 d => 48 :: digits d
  | Decimal.D1 d => 49 :: digits d
  | Decimal.D2 d => 50 :: digits d
  | Decimal.D3 d => 51 :: digits d
  | Decimal.D4 d => 52 :: digits d
  | Decimal.D5 d => 53 :: digits d
  | Decimal.D6 d => 54 :: digits d
  | Decimal.D7 d => 55 :: digits d
  | Decimal.D8 d => 56 :: digits d
  | Decimal.D9 d => 57 :: digits d
  end.

Definition int_str (n : Z) : str :=
  match Z.to_int n with
  | Decimal.Pos d => digits d
  | Decimal.Neg d => 45 :: digits d
  end.

(** ** Python values *)

(** What the embedding needs of the floats of a JSON tree. *)
Class PyFloat (F : Type) := {
  float_str : F -> str;
  float_bool : F -> bool;
  float_eq_dec :: EqDecision F
}.

(** Trees without floats. *)
#[export] Instance no_float : PyFloat Empty_set := {
  float_str := fun x => match x with end;
  float_bool := fun x => match x with end
}.

Inductive scalar (F : Type) : Type :=
| SNone
| SBool (b : bool)
| SInt (n : Z)
| SFloat (x : F)
| SStr (s : str).

Arguments SNone {F}.
Arguments SBool {F} b.
Arguments SInt {F} n.
Arguments SFloat {F} x.
Arguments SStr {F} s.

(** A JSON-like value: what [json.loads] returns. *)
Inductive value (F : Type) : Type :=
| VScalar (s : scalar F)
| VList (l : list (value F))
| VDict (items : list (str * value F)).

Arguments VScalar {F} s.
Arguments VList {F} l.
Arguments VDict {F} items.

Abbreviation VStr s := (VScalar (SStr s)).
Abbreviation VInt n := (VScalar (SInt n)).

(** Induction on values, with the hypothesis for every element of a list
    and every value of a dict. *)
Section ValueInd.
Context {F : Type} (P : value F -> Prop).
Hypothesis Hscalar : forall s, P (VScalar s).
Hypothesis Hlist : forall l, Forall P l -> P (VList l).
Hypothesis Hdict : forall items, Forall (fun kv => P kv.2) items -> P (VDict items).

Fixpoint value_ind' (v : value F) : P v :=
  match v with
  | VScalar s => Hscalar s
  | VList l =>
      Hlist l ((fix go l : Forall P l :=
                  match l with
                  | [] => Forall_nil_2 P
                  | x :: l' => Forall_cons_2 P x l' (value_ind' x) (go l')
                  end) l)
  | VDict items =>
      Hdict items ((fix go l : Forall (fun kv => P kv.2) l :=
                      match l with
                      | [] => Forall_nil_2 _
                      | kv :: l' => Forall_cons_2 _ kv l' (value_ind' kv.2) (go l')
                      end) items)
  end.
End ValueInd.

(** ** Dictionaries *)

Abbreviation pydict V := (list (str * V)).

(** [d.keys()] *)
Definition keys {K V} (d : list (K * V)) : list K := d.*1.

(** [d.get(k)] *)
Fixpoint dict_get {K V} `{EqDecision K} (k : K) (d : list (K * V)) : option V :=
  match d with
  | [] => None
  | (k', v) :: d' => if decide (k = k') then Some v else dict_get k d'
  end.

(** [d[k] = v] *)
Fixpoint dict_set {K V} `{EqDecision K} (k : K) (v : V) (d : list (K * V)) : list (K * V) :=
  match d with
  | [] => [(k, v)]
  | (k', v') :: d' =>
      if decide (k = k') then (k', v) :: d' else (k', v') :: dict_set k v d'
  end.

(** [k in d] *)
Definition dict_mem {K V} `{EqDecision K} (k : K) (d : list (K * V)) : bool :=
  bool_decide (k ∈ keys d).

(** ** Sorting *)

(** [sorted(l, key=...)], stable, for the order [le] on the keys. *)
Fixpoint insert_by {A} (le : A -> A -> bool) (x : A) (l : list A) : list A :=
  match l with
  | [] => [x]
  | y :: l' => if le x y then x :: l else y :: insert_by le x l'
  end.

Definition sorted {A} (le : A -> A -> bool) (l : list A) : list A :=
  foldr (insert_by le) [] l.

(** Python's comparison of two strings, [a <= b]. *)
Fixpoint str_leb (a b : str) : bool :=
  match a, b with
  | [], _ => true
  | _ :: _, [] => false
  | x :: a', y :: b' => (x <? y) || ((x =? y) && str_leb a' b')
  end.

(** [(len(a), a) <= (len(b), b)], the sort key of [normalize_dict]. *)
Definition key_leb (a b : str) : bool :=
  (length a <? length b)%nat || ((length a =? length b)%nat && str_leb a b).

(** ** The structure normalizer and the flattener *)

Section Normalize.
Context {F : Type} `{PyFloat F}.

(** [str(x)] for a scalar. *)
Definition py_str (s : scalar F) : str :=
  match s with
  | SNone => lit "None"
  | SBool true => lit "True"
  | SBool false => lit "False"
  | SInt n => int_str n
  | SFloat x => float_str x
  | SStr s => s
  end.

(** [type(item) in {str, int, float}]: the exact type, so [bool] is out. *)
Definition type_in_str_int_float (s : scalar F) : bool :=
  match s with
  | SStr _ | SInt _ | SFloat _ => true
  | SNone | SBool _ => false
  end.

(** Truth value of a value: [bool(v)]. *)
Definition truthy (v : value F) : bool :=
  match v with
  | VScalar SNone => false
  | VScalar (SBool b) => b
  | VScalar (SInt n) => negb (n =? 0)%Z
  | VScalar (SFloat x) => float_bool x
  | VScalar (SStr s) => str_bool s
  | VList l => match l with [] => false | _ => true end
  | VDict items => match items with [] => false | _ => true end
  end.

(** [isinstance(v, dict)] and [isinstance(v, list)] *)
Definition is_dict (v : value F) : bool :=
  match v with VDict _ => true | _ => false end.

Definition is_list (v : value F) : bool :=
  match v with VList _ => true | _ => false end.

(** One element of the comprehension
    [[str(item).strip() for item in data
      if type(item) in {str, int, float} and str(item).strip()]]:
    the string it yields, or nothing when the filter rejects it. *)
Definition scalar_item (item : value F) : option (value F) :=
  match item with
  | VScalar s =>
      if type_in_str_int_float s && str_bool (strip (py_str s))
      then Some (VStr (strip (py_str s)))
      else None
  | VList _ | VDict _ => None
  end.

(** The body of the loop over the sorted keys of a dict; [normalized] holds
    [normalize_dict(data[key])] for every key of [data], so the lookup finds
    an entry for every key of the loop. *)
Definition normalize_key (normalized : pydict (value F))
    (new_data : pydict (value F)) (key : str) : pydict (value F) :=
  match dict_get key normalized with
  | Some value =>
      if truthy value
      then dict_set key (if is_list value then value else VList [value]) new_data
      else new_data
  | None => new_data
  end.

Fixpoint normalize_dict (data : value F) : value F :=
  match data with
  | VDict items =>
      let normalized := (fun kv => (kv.1, normalize_dict kv.2)) <$> items in
      VDict (foldl (normalize_key normalized) [] (sorted key_leb (keys items)))
  | VList l =>
      if forallb is_dict l
      then VList (List.filter truthy (normalize_dict <$> l))
      else VList (omap scalar_item l)
  | VScalar s => VList [VStr (strip (py_str s))]
  end.

(** The path of a child: [f"{key}.{child_key}" if key else child_key]. *)
Definition child_path (key child_key : str) : str :=
  if str_bool key then key ++ lit "." ++ child_key else child_key.

Fixpoint _flatten (v : value F) (key : str) : list (str * scalar F) :=
  match v with
  | VDict items =>
      flat_map (fun kv => _flatten kv.2 (child_path key kv.1)) items
  | VList l => flat_map (fun value_item => _flatten value_item key) l
  | VScalar s => [(key, s)]
  end.

Definition flatten (data : value F) : list (str * scalar F) :=
  _flatten data [].

End Normalize.

(** ** The matcher and scorer: [cal_f1_all] *)

(** [l.remove(x)]: the first element equal to [x] goes. *)
Fixpoint remove_first {A} `{EqDecision A} (x : A) (l : list A) : list A :=
  match l with
  | [] => []
  | y :: l' => if decide (x = y) then l' else y :: remove_first x l'
  end.

(** [dict(Counter(l))]: the elements of [l] in order of first occurrence,
    each with the number of its occurrences. *)
Definition Counter (l : list str) : pydict nat :=
  foldl (fun counter x => dict_set x (S (default 0%nat (dict_get x counter))) counter) [] l.

(** [1e-6] *)
Definition epsilon : Q := 1 # 1000000.

(** [tp / (tp + fn_or_fp / 2 + 1e-6)] *)
Definition f1_formula (tp fn_or_fp : nat) : Q :=
  (inject_Z (Z.of_nat tp)
   / (inject_Z (Z.of_nat tp) + inject_Z (Z.of_nat fn_or_fp) / 2 + epsilon))%Q.

(** An entry of [metric_info] while the documents are scored. *)
Record field_counts := {
  fc_total_tp : nat;
  fc_total_fn_or_fp : nat
}.

(** An entry of [metric_info] as returned: the counters and ["acc"]. *)
Record field_stats := {
  fs_total_tp : nat;
  fs_total_fn_or_fp : nat;
  fs_acc : Q
}.

#[export] Instance scalar_eq_dec {F} `{PyFloat F} : EqDecision (scalar F).
Proof. solve_decision. Defined.

Section Scorer.
Context {F : Type} `{PyFloat F}.

(** A flattened field: [(path, value)]. *)
Abbreviation field := (str * scalar F)%type.

(** An entry of [error_info]: the [sample_error_info] of a document that
    has an error. *)
Record sample_error_info := {
  se_fp : list field;
  se_fn : list field;
  se_tp : list field;
  se_error_num : nat;
  se_error_info : pydict nat
}.

(** The variables the loop over the documents updates. *)
Record scorer := {
  metric_info : pydict field_counts;
  error_info : pydict sample_error_info;
  total_tp : nat;
  total_fn_or_fp : nat
}.

(** The variables of the loops over the fields of one document. *)
Record sample := {
  sc : scorer;
  fp : list field;
  fn : list field;
  tp : list field;
  answer : list field
}.

(** [if field_name not in metric_info: metric_info[field_name] = {...}] *)
Definition touch (field_name : str) (m : pydict field_counts) : pydict field_counts :=
  if dict_mem field_name m then m
  else dict_set field_name {| fc_total_tp := 0; fc_total_fn_or_fp := 0 |} m.

(** [metric_info[field_name]["total_tp"] += 1] *)
Definition add_tp (field_name : str) (m : pydict field_counts) : pydict field_counts :=
  match dict_get field_name m with
  | Some c =>
      dict_set field_name
        {| fc_total_tp := S (fc_total_tp c); fc_total_fn_or_fp := fc_total_fn_or_fp c |} m
  | None => m
  end.

(** [metric_info[field_name]["total_fn_or_fp"] += 1] *)
Definition add_fn_or_fp (field_name : str) (m : pydict field_counts) : pydict field_counts :=
  match dict_get field_name m with
  | Some c =>
      dict_set field_name
        {| fc_total_tp := fc_total_tp c; fc_total_fn_or_fp := S (fc_total_fn_or_fp c) |} m
  | None => m
  end.

(** The body of [for field in pred]. *)
Definition pred_step (s : sample) (fld : field) : sample :=
  let field_name := fld.1 in
  let m := touch field_name (metric_info (sc s)) in
  if bool_decide (fld ∈ answer s) then
    {| sc := {| metric_info := add_tp field_name m;
                error_info := error_info (sc s);
                total_tp := S (total_tp (sc s));
                total_fn_or_fp := total_fn_or_fp (sc s) |};
       fp := fp s; fn := fn s;
       tp := tp s ++ [fld];
       answer := remove_first fld (answer s) |}
  else
    {| sc := {| metric_info := add_fn_or_fp field_name m;
                error_info := error_info (sc s);
                total_tp := total_tp (sc s);
                total_fn_or_fp := S (total_fn_or_fp (sc s)) |};
       fp := fp s ++ [fld];
       fn := fn s; tp := tp s;
       answer := answer s |}.

(** The body of [for field in answer], over what is left of the answer. *)
Definition answer_step (s : sample) (fld : field) : sample :=
  let field_name := fld.1 in
  let m := touch field_name (metric_info (sc s)) in
  {| sc := {| metric_info := add_fn_or_fp field_name m;
              error_info := error_info (sc s);
              total_tp := total_tp (sc s);
              total_fn_or_fp := total_fn_or_fp (sc s) |};
     fp := fp s;
     fn := fn s ++ [fld];
     tp := tp s;
     answer := answer s |}.

(** [total_fn_or_fp += len(answer)] *)
Definition add_len_answer (s : sample) : sample :=
  {| sc := {| metric_info := metric_info (sc s);
              error_info := error_info (sc s);
              total_tp := total_tp (sc s);
              total_fn_or_fp := (total_fn_or_fp (sc s) + length (answer s))%nat |};
     fp := fp s; fn := fn s; tp := tp s; answer := answer s |}.

(** The two loops over the fields of a document. *)
Definition match_fields (s0 : scorer) (pred answer0 : list field) : sample :=
  let s := foldl pred_step
             {| sc := s0; fp := []; fn := []; tp := []; answer := answer0 |} pred in
  let s := add_len_answer s in
  foldl answer_step s (answer s).

(** ["counter_" + x[0] for x in fn + fp] *)
Definition error_class_list (s : sample) : list str :=
  (fun x : field => lit "counter_" ++ x.1) <$> (fn s ++ fp s).

(** The end of the body of the loop over the documents: the error record. *)
Definition record_errors (file_name : str) (s : sample) : scorer :=
  let sample_error_num := (length (fp s) + length (fn s))%nat in
  if (0 <? sample_error_num)%nat then
    {| metric_info := metric_info (sc s);
       error_info :=
         dict_set file_name
           {| se_fp := fp s; se_fn := fn s; se_tp := tp s;
              se_error_num := sample_error_num;
              se_error_info := Counter (error_class_list s) |}
           (error_info (sc s));
       total_tp := total_tp (sc s);
       total_fn_or_fp := total_fn_or_fp (sc s) |}
  else sc s.

(** The body of [for file_name, answer in answers.items()]. *)
Definition score_document (preds : pydict (value F)) (s : scorer)
    (doc : str * value F) : scorer :=
  let file_name := doc.1 in
  let pred := default (VDict []) (dict_get file_name preds) in
  record_errors file_name
    (match_fields s (flatten (normalize_dict pred)) (flatten (normalize_dict doc.2))).

Definition scorer_init : scorer :=
  {| metric_info := []; error_info := []; total_tp := 0; total_fn_or_fp := 0 |}.

(** The loop over the documents of the ground truth. *)
Definition scoring_loop (preds answers : pydict (value F)) : scorer :=
  foldl (score_document preds) scorer_init answers.

(** [metric_info[field_name]["acc"] = ...] for every entry. *)
Definition with_acc (kv : str * field_counts) : str * field_stats :=
  (kv.1, {| fs_total_tp := fc_total_tp kv.2;
            fs_total_fn_or_fp := fc_total_fn_or_fp kv.2;
            fs_acc := f1_formula (fc_total_tp kv.2) (fc_total_fn_or_fp kv.2) |}).

(** [sorted(d.items(), key=..., reverse=True)]: stable, largest first. *)
Definition sorted_desc {V} (key : V -> nat) (d : pydict V) : pydict V :=
  sorted (fun a b => (key b.2 <=? key a.2)%nat) d.

Definition cal_f1_all (preds answers : pydict (value F))
  : Q * pydict field_stats * pydict sample_error_info :=
  let s := scoring_loop preds answers in
  let metric_info := with_acc <$> metric_info s in
  let error_info := sorted_desc se_error_num (error_info s) in
  let metric_info := sorted_desc fs_total_fn_or_fp metric_info in
  (f1_formula (total_tp s) (total_fn_or_fp s), metric_info, error_info).

End Scorer.

Arguments sample_error_info F : clear implicits.
Arguments scorer F : clear implicits.
Arguments sample F : clear implicits.

(** ** The text normalizer *)

(** [pat in s] and [s.startswith(pat)] *)
Fixpoint startswith (pat s : str) : bool :=
  match pat, s with
  | [], _ => true
  | _ :: _, [] => false
  | x :: pat', y :: s' => (x =? y) && startswith pat' s'
  end.

Fixpoint contains (pat s : str) : bool :=
  startswith pat s || match s with [] => false | _ :: s' => contains pat s' end.














(** ** The orchestrator: loading the records, and the summary of [main] *)

(** [url[7:] if url.startswith("images/") else url] *)
Definition extract_image_name (url : str) : str :=
  if startswith (lit "images/") url then drop 7 url else url.

(** What [load_predictions] prints for a line. *)
Inductive message :=
| MissingUrl
| HasError
| NoPredictionResult
| JsonParsingFailed
| LineJsonFailed
| LineProcessingFailed.

(** A line of the file: blank, not JSON, or the value [json.loads] gives. *)
Inductive line (F : Type) :=
| Blank
| NotJson
| Parsed (data : value F).

Arguments Blank {F}.
Arguments NotJson {F}.
Arguments Parsed {F} data.

Section Orchestrator.
Context {F : Type} `{PyFloat F}.

(** [x in v] for a string [x]; [None] when Python raises [TypeError]. *)
Definition py_in (x : str) (v : value F) : option bool :=
  match v with
  | VDict items => Some (dict_mem x items)
  | VList l =>
      Some (existsb (fun item => match item with
                                 | VStr s => bool_decide (s = x)
                                 | _ => false
                                 end) l)
  | VStr s => Some (contains x s)
  | VScalar _ => None
  end.

(** The body of the loop of [load_predictions] from the line that reads
    [model_result] on: what is printed, and the
    [(dataset, image_name, model_result)] stored, if any. An exception the
    [except Exception] clause catches ends the body with
    [LineProcessingFailed] and nothing stored. *)
Definition read_model_result (items : pydict (value F)) (image_name : str)
  : list message * option (scalar F * str * value F) :=
  let dataset := default (VStr (lit "unknown")) (dict_get (lit "dataset") items) in
  let model_result := dict_get (lit "model_result") items in
  let warned := if dict_mem (lit "error") items then [HasError] else [] in
  match model_result with
  | None | Some (VScalar SNone) => (warned ++ [NoPredictionResult], None)
  | Some model_result =>
      match py_in (lit "_parse_error") model_result with
      | None => (warned ++ [LineProcessingFailed], None)
      | Some true =>
          (warned ++ [if is_dict model_result then JsonParsingFailed
                      else LineProcessingFailed], None)
      | Some false =>
          match dataset with
          | VScalar dataset => (warned, Some (dataset, image_name, model_result))
          | _ => (warned ++ [LineProcessingFailed], None)
          end
      end
  end.

(** The body of the loop of [load_predictions] for a parsed line. *)
Definition read_record (data : value F)
  : list message * option (scalar F * str * value F) :=
  match data with
  | VDict items =>
      let url := default (VStr []) (dict_get (lit "url") items) in
      if negb (truthy url) then ([MissingUrl], None)
      else
        match url with
        | VStr url => read_model_result items (extract_image_name url)
        | _ => ([LineProcessingFailed], None)
        end
  | _ => ([LineProcessingFailed], None)
  end.

(** [predictions[dataset][image_name] = model_result], on a
    [defaultdict(dict)]. *)
Definition store (predictions : list (scalar F * pydict (value F)))
    (r : scalar F * str * value F) : list (scalar F * pydict (value F)) :=
  let '(dataset, image_name, model_result) := r in
  dict_set dataset
    (dict_set image_name model_result (default [] (dict_get dataset predictions)))
    predictions.

Definition load_step (predictions : list (scalar F * pydict (value F)))
    (l : line F) : list (scalar F * pydict (value F)) :=
  match l with
  | Blank | NotJson => predictions
  | Parsed data =>
      match (read_record data).2 with
      | Some r => store predictions r
      | None => predictions
      end
  end.

Definition load_predictions (lines : list (line F))
  : list (scalar F * pydict (value F)) :=
  foldl load_step [] lines.

End Orchestrator.






(** ** Notions the statements use *)

(** [l.count(x)] *)
Fixpoint count {A} `{EqDecision A} (x : A) (l : list A) : nat :=
  match l with
  | [] => 0
  | y :: l' => ((if decide (x = y) then 1 else 0) + count x l')%nat
  end.

(** The number of fields of [l] whose path is [name]. *)
Definition count_path {V} (name : str) (l : list (str * V)) : nat :=
  count name l.*1.

(** The counters of the field [name] in [metric_info]; zero when the field
    has no entry yet. *)
Definition field_tp (name : str) (m : pydict field_counts) : nat :=
  default 0%nat (fc_total_tp <$> dict_get name m).

Definition field_fn_or_fp (name : str) (m : pydict field_counts) : nat :=
  default 0%nat (fc_total_fn_or_fp <$> dict_get name m).

Definition zero_counts : field_counts :=
  {| fc_total_tp := 0; fc_total_fn_or_fp := 0 |}.

(** What a run of the loops over the fields adds to the counters: [dtp],
    [dfp] and [dfn] are the fields the run appends to the three lists, [d]
    what it adds to [total_fn_or_fp]. *)
Definition accounted {F} (s s' : sample F) (dtp dfp dfn : list (str * scalar F))
    (d : nat) : Prop :=
  tp s' = tp s ++ dtp /\ fp s' = fp s ++ dfp /\ fn s' = fn s ++ dfn
  /\ total_tp (sc s') = (total_tp (sc s) + length dtp)%nat
  /\ total_fn_or_fp (sc s') = (total_fn_or_fp (sc s) + d)%nat
  /\ error_info (sc s') = error_info (sc s)
  /\ forall name,
       field_tp name (metric_info (sc s'))
       = (field_tp name (metric_info (sc s)) + count_path name dtp)%nat
       /\ field_fn_or_fp name (metric_info (sc s'))
          = (field_fn_or_fp name (metric_info (sc s))
             + count_path name dfp + count_path name dfn)%nat.

(** [del d[k]], for every binding of [k]. *)
Definition dict_del {K V} `{EqDecision K} (k : K) (d : list (K * V)) : list (K * V) :=
  List.filter (fun kv => bool_decide (kv.1 <> k)) d.

(** No scalar that [normalize_dict] wraps on its own (the root, the value of
    a key, through dicts and lists of dicts) has a blank [str()]. *)
Fixpoint no_blank_scalar {F} `{PyFloat F} (v : value F) : bool :=
  match v with
  | VScalar s => str_bool (strip (py_str s))
  | VList l => if forallb is_dict l then forallb no_blank_scalar l else true
  | VDict items => forallb (fun kv => no_blank_scalar kv.2) items
  end.

(** ** Scenarios *)

(** Scenario C: [gt = {"items": ["a", "a"]}], [pred = {"items": ["a"]}]. *)
Definition scenario_c_gt : value Empty_set :=
  VDict [(lit "items", VList [VStr (lit "a"); VStr (lit "a")])].

Definition scenario_c_pred : value Empty_set :=
  VDict [(lit "items", VList [VStr (lit "a")])].

(** [{"a": "x"}] *)
Definition one_field : value Empty_set := VDict [(lit "a", VStr (lit "x"))].

(** The dict whose only key, [a], holds the empty string. *)
Definition blank_field : value Empty_set := VDict [(lit "a", VStr [])].


(** [{"dataset": "D", "url": "images/x.png", "error": "boom",
      "model_result": {"a": "x"}}] *)
Definition record_with_error : value Empty_set :=
  VDict [(lit "dataset", VStr (lit "D")); (lit "url", VStr (lit "images/x.png"));
         (lit "error", VStr (lit "boom")); (lit "model_result", one_field)].

(** The scalar elements of a list, in order. *)
Definition scalars_of {F} (l : list (value F)) : list (scalar F) :=
  omap (fun v => match v with VScalar s => Some s | _ => None end) l.



(** * Properties *)
(** ** Dictionaries and counting *)

Section DictFacts.
Context {K V : Type} `{EqDecision K}.
Implicit Types (k : K) (v : V) (d : list (K * V)).

Lemma dict_get_set k k' v d :
  dict_get k (dict_set k' v d) = if decide (k = k') then Some v else dict_get k d.
Proof.
  induction d as [|[k0 v0] d IH]; simpl.
  - repeat case_decide; congruence.
  - destruct (decide (k' = k0)) as [E1|E1]; simpl;
      destruct (decide (k = k0)) as [E2|E2]; rewrite ?IH;
      destruct (decide (k = k')) as [E3|E3]; congruence.
Qed.

Lemma dict_get_None k d : dict_get k d = None <-> k ∉ keys d.
Proof.
  unfold keys. induction d as [|[k0 v0] d IH]; simpl.
  - split; [intros _; apply not_elem_of_nil | done].
  - rewrite not_elem_of_cons. case_decide; subst.
    + split; [done | intros [? _]; done].
    + rewrite IH. tauto.
Qed.

Lemma dict_get_Some_elem k v d : dict_get k d = Some v -> (k, v) ∈ d.
Proof.
  induction d as [|[k0 v0] d IH]; simpl; [done|].
  case_decide; subst.
  - intros [= ->]. left.
  - intros. right. auto.
Qed.

Lemma dict_mem_get k d : dict_mem k d = bool_decide (is_Some (dict_get k d)).
Proof.
  unfold dict_mem. apply bool_decide_ext.
  rewrite <- not_eq_None_Some, dict_get_None.
  destruct (decide (k ∈ keys d)); tauto.
Qed.

Lemma keys_dict_set k v d :
  keys (dict_set k v d) = if decide (k ∈ keys d) then keys d else keys d ++ [k].
Proof.
  unfold keys. induction d as [|[k0 v0] d IH]; [done|].
  cbn [dict_set]. destruct (decide (k = k0)) as [->|Hne].
  - rewrite decide_True; [done|]. rewrite fmap_cons. left.
  - rewrite !fmap_cons, IH. cbn [fst].
    destruct (decide (k ∈ d.*1)) as [Hin|Hin].
    + rewrite decide_True by (by right). done.
    + rewrite decide_False; [done|]. rewrite elem_of_cons. tauto.
Qed.

Lemma dict_set_fresh k v d : k ∉ keys d -> dict_set k v d = d ++ [(k, v)].
Proof.
  unfold keys. induction d as [|[k0 v0] d IH]; simpl; [done|].
  rewrite not_elem_of_cons. intros [Hne Hin].
  rewrite decide_False by done. by rewrite IH.
Qed.

End DictFacts.

Section CountFacts.
Context {A : Type} `{EqDecision A}.
Implicit Types (x y : A) (l : list A).

Lemma count_app x l1 l2 : count x (l1 ++ l2) = (count x l1 + count x l2)%nat.
Proof. induction l1 as [|z l1 IH]; simpl; [done|]. rewrite IH. lia. Qed.

Lemma count_notin x l : x ∉ l -> count x l = 0%nat.
Proof.
  induction l as [|z l IH]; simpl; [done|].
  rewrite not_elem_of_cons. intros [Hne Hin].
  rewrite decide_False by done. by rewrite IH.
Qed.

Lemma count_in x l : x ∈ l -> (0 < count x l)%nat.
Proof.
  induction l as [|z l IH]; simpl.
  - intros Hin. by apply elem_of_nil in Hin.
  - destruct (decide (x = z)); [lia|].
    rewrite elem_of_cons. intros [?|?]; [done|]. simpl. auto.
Qed.

Lemma count_remove_first x y l :
  y ∈ l ->
  (count x (remove_first y l) + (if decide (x = y) then 1 else 0))%nat = count x l.
Proof.
  induction l as [|z l IH]; simpl.
  - intros Hin. by apply elem_of_nil in Hin.
  - rewrite elem_of_cons. intros Hin.
    destruct (decide (y = z)) as [->|Hne].
    + lia.
    + destruct Hin as [?|Hin]; [done|]. simpl. specialize (IH Hin). lia.
Qed.

Lemma length_remove_first y l : y ∈ l -> S (length (remove_first y l)) = length l.
Proof.
  induction l as [|z l IH]; simpl.
  - intros Hin. by apply elem_of_nil in Hin.
  - rewrite elem_of_cons. intros Hin.
    destruct (decide (y = z)) as [->|Hne]; [done|].
    destruct Hin as [?|Hin]; [done|]. simpl. by rewrite IH.
Qed.

Lemma count_zero_nil l : (forall x, count x l = 0%nat) -> l = [].
Proof.
  destruct l as [|z l]; [done|]. intros Hz. specialize (Hz z). simpl in Hz.
  rewrite decide_True in Hz by done. lia.
Qed.

End CountFacts.

(** ** The loops over the fields of a document *)

Section MatchFacts.
Context {F : Type} `{PyFloat F}.
Implicit Types (s : sample F) (fld x : str * scalar F).

Lemma pred_step_hit s fld :
  fld ∈ answer s ->
  total_tp (sc (pred_step s fld)) = S (total_tp (sc s))
  /\ total_fn_or_fp (sc (pred_step s fld)) = total_fn_or_fp (sc s)
  /\ tp (pred_step s fld) = tp s ++ [fld]
  /\ fp (pred_step s fld) = fp s
  /\ fn (pred_step s fld) = fn s
  /\ answer (pred_step s fld) = remove_first fld (answer s).
Proof. intros Hin. unfold pred_step. rewrite bool_decide_eq_true_2 by done. done. Qed.

Lemma pred_step_miss s fld :
  fld ∉ answer s ->
  total_tp (sc (pred_step s fld)) = total_tp (sc s)
  /\ total_fn_or_fp (sc (pred_step s fld)) = S (total_fn_or_fp (sc s))
  /\ tp (pred_step s fld) = tp s
  /\ fp (pred_step s fld) = fp s ++ [fld]
  /\ fn (pred_step s fld) = fn s
  /\ answer (pred_step s fld) = answer s.
Proof. intros Hin. unfold pred_step. rewrite bool_decide_eq_false_2 by done. done. Qed.

Lemma pred_loop_counts pred : forall s x,
  let s' := foldl pred_step s pred in
  count x (tp s') = (count x (tp s) + Nat.min (count x pred) (count x (answer s)))%nat
  /\ count x (fp s') = (count x (fp s) + (count x pred - count x (answer s)))%nat
  /\ count x (answer s') = (count x (answer s) - count x pred)%nat
  /\ fn s' = fn s.
Proof.
  induction pred as [|fld pred IH]; intros s x; simpl.
  - repeat split; lia.
  - destruct (IH (pred_step s fld) x) as (Htp & Hfp & Hans & Hfn).
    rewrite Htp, Hfp, Hans, Hfn. clear IH Htp Hfp Hans Hfn.
    destruct (decide (fld ∈ answer s)) as [Hin|Hin].
    + destruct (pred_step_hit s fld Hin) as (_ & _ & -> & -> & -> & ->).
      rewrite count_app. simpl.
      pose proof (count_remove_first x fld (answer s) Hin) as Hc.
      apply count_in in Hin.
      destruct (decide (x = fld)) as [->|Hne]; repeat split; lia.
    + destruct (pred_step_miss s fld Hin) as (_ & _ & -> & -> & -> & ->).
      rewrite count_app. simpl.
      apply count_notin in Hin.
      destruct (decide (x = fld)) as [->|Hne]; repeat split; lia.
Qed.

Lemma answer_loop l : forall s,
  let s' := foldl answer_step s l in
  fn s' = fn s ++ l /\ tp s' = tp s /\ fp s' = fp s /\ answer s' = answer s
  /\ total_tp (sc s') = total_tp (sc s)
  /\ total_fn_or_fp (sc s') = total_fn_or_fp (sc s)
  /\ error_info (sc s') = error_info (sc s).
Proof.
  induction l as [|fld l IH]; intros s; simpl.
  - by rewrite app_nil_r.
  - destruct (IH (answer_step s fld)) as (-> & -> & -> & -> & -> & -> & ->).
    simpl. by rewrite <- app_assoc.
Qed.

Lemma match_fields_lists (s0 : scorer F) pred answer0 :
  let s1 := foldl pred_step
              {| sc := s0; fp := []; fn := []; tp := []; answer := answer0 |} pred in
  let m := match_fields s0 pred answer0 in
  tp m = tp s1 /\ fp m = fp s1 /\ fn m = answer s1.
Proof.
  intros s1 m.
  pose proof (pred_loop_counts pred
    {| sc := s0; fp := []; fn := []; tp := []; answer := answer0 |} ([], SNone))
    as (_ & _ & _ & Hfn).
  fold s1 in Hfn. cbn [fn] in Hfn.
  unfold m, match_fields. fold s1.
  destruct (answer_loop (answer (add_len_answer s1)) (add_len_answer s1))
    as (-> & -> & -> & _).
  cbn [add_len_answer fn tp fp answer]. by rewrite Hfn.
Qed.

Lemma match_fields_counts (s0 : scorer F) pred answer0 x :
  let m := match_fields s0 pred answer0 in
  count x (tp m) = Nat.min (count x pred) (count x answer0)
  /\ count x (fp m) = (count x pred - count x answer0)%nat
  /\ count x (fn m) = (count x answer0 - count x pred)%nat.
Proof.
  intros m. destruct (match_fields_lists s0 pred answer0) as (Ht & Hf & Hn).
  fold m in Ht, Hf, Hn. rewrite Ht, Hf, Hn.
  destruct (pred_loop_counts pred
    {| sc := s0; fp := []; fn := []; tp := []; answer := answer0 |} x)
    as (-> & -> & -> & _).
  simpl. repeat split; lia.
Qed.

End MatchFacts.

(** ** The counters *)

Section CounterFacts.
Implicit Types (m : pydict field_counts) (name n : str).

Lemma touch_get name n m :
  dict_get name (touch n m)
  = if decide (name = n) then Some (default zero_counts (dict_get n m))
    else dict_get name m.
Proof.
  unfold touch. rewrite dict_mem_get.
  destruct (dict_get n m) as [c|] eqn:E.
  - rewrite bool_decide_eq_true_2 by eauto.
    destruct (decide (name = n)) as [->|]; [by rewrite E | done].
  - rewrite bool_decide_eq_false_2 by (intros [? ?]; done).
    by rewrite dict_get_set.
Qed.

Lemma add_tp_counts name n m :
  field_tp name (add_tp n (touch n m))
  = (field_tp name m + if decide (name = n) then 1 else 0)%nat
  /\ field_fn_or_fp name (add_tp n (touch n m)) = field_fn_or_fp name m.
Proof.
  unfold field_tp, field_fn_or_fp, add_tp.
  rewrite (touch_get n n m), decide_True by done.
  rewrite dict_get_set, touch_get.
  destruct (decide (name = n)) as [->|]; [|split; simpl; lia].
  destruct (dict_get n m); simpl; split; lia.
Qed.

Lemma add_fn_or_fp_counts name n m :
  field_tp name (add_fn_or_fp n (touch n m)) = field_tp name m
  /\ field_fn_or_fp name (add_fn_or_fp n (touch n m))
     = (field_fn_or_fp name m + if decide (name = n) then 1 else 0)%nat.
Proof.
  unfold field_tp, field_fn_or_fp, add_fn_or_fp.
  rewrite (touch_get n n m), decide_True by done.
  rewrite dict_get_set, touch_get.
  destruct (decide (name = n)) as [->|]; [|split; simpl; lia].
  destruct (dict_get n m); simpl; split; lia.
Qed.

Lemma count_path_snoc {V} name (l : list (str * V)) (x : str * V) :
  count_path name (l ++ [x])
  = (count_path name l + if decide (name = x.1) then 1 else 0)%nat.
Proof. unfold count_path. rewrite fmap_app, count_app. simpl. lia. Qed.

Lemma count_path_app {V} name (l1 l2 : list (str * V)) :
  count_path name (l1 ++ l2) = (count_path name l1 + count_path name l2)%nat.
Proof. unfold count_path. by rewrite fmap_app, count_app. Qed.

End CounterFacts.

Section Accounting.
Context {F : Type} `{PyFloat F}.

Lemma accounted_refl (s : sample F) : accounted s s [] [] [] 0.
Proof.
  unfold accounted, count_path. rewrite !app_nil_r. simpl.
  repeat split; lia.
Qed.

Lemma accounted_trans (s1 s2 s3 : sample F) a b c d a' b' c' d' :
  accounted s1 s2 a b c d -> accounted s2 s3 a' b' c' d' ->
  accounted s1 s3 (a ++ a') (b ++ b') (c ++ c') (d + d').
Proof.
  intros (E1 & E2 & E3 & E4 & E5 & E6 & E7) (G1 & G2 & G3 & G4 & G5 & G6 & G7).
  unfold accounted. rewrite G1, G2, G3, G4, G5, G6, E1, E2, E3, E4, E5, E6.
  rewrite !length_app, !app_assoc.
  repeat split; try lia.
  - destruct (G7 name) as [-> _], (E7 name) as [-> _].
    rewrite count_path_app. lia.
  - destruct (G7 name) as [_ ->], (E7 name) as [_ ->].
    rewrite !count_path_app. lia.
Qed.

Lemma pred_step_accounted (s : sample F) fld :
  accounted s (pred_step s fld)
    (if decide (fld ∈ answer s) then [fld] else [])
    (if decide (fld ∈ answer s) then [] else [fld]) []
    (if decide (fld ∈ answer s) then 0 else 1).
Proof.
  unfold accounted, pred_step.
  destruct (decide (fld ∈ answer s)) as [Hin|Hin].
  - rewrite bool_decide_eq_true_2 by done.
    cbn [sc tp fp fn total_tp total_fn_or_fp error_info metric_info].
    rewrite !app_nil_r. simpl length.
    repeat split; try lia.
    + destruct (add_tp_counts name fld.1 (metric_info (sc s))) as [-> _].
      unfold count_path. simpl. lia.
    + destruct (add_tp_counts name fld.1 (metric_info (sc s))) as [_ ->].
      unfold count_path. simpl. lia.
  - rewrite bool_decide_eq_false_2 by done.
    cbn [sc tp fp fn total_tp total_fn_or_fp error_info metric_info].
    rewrite !app_nil_r. simpl length.
    repeat split; try lia.
    + destruct (add_fn_or_fp_counts name fld.1 (metric_info (sc s))) as [-> _].
      unfold count_path. simpl. lia.
    + destruct (add_fn_or_fp_counts name fld.1 (metric_info (sc s))) as [_ ->].
      unfold count_path. simpl. lia.
Qed.

Lemma pred_loop_accounted pred : forall s : sample F,
  exists dtp dfp,
    accounted s (foldl pred_step s pred) dtp dfp [] (length dfp).
Proof.
  induction pred as [|fld pred IH]; intros s; simpl.
  - exists [], []. apply accounted_refl.
  - destruct (IH (pred_step s fld)) as (a & b & Hacc).
    pose proof (accounted_trans _ _ _ _ _ _ _ _ _ _ _
                  (pred_step_accounted s fld) Hacc) as Ht.
    destruct (decide (fld ∈ answer s)); eexists _, _; rewrite length_app; exact Ht.
Qed.

Lemma answer_step_accounted (s : sample F) fld : accounted s (answer_step s fld) [] [] [fld] 0.
Proof.
  unfold accounted, answer_step.
  cbn [sc tp fp fn total_tp total_fn_or_fp error_info metric_info].
  rewrite !app_nil_r. simpl length.
  repeat split; try lia.
  - destruct (add_fn_or_fp_counts name fld.1 (metric_info (sc s))) as [-> _].
    unfold count_path. simpl. lia.
  - destruct (add_fn_or_fp_counts name fld.1 (metric_info (sc s))) as [_ ->].
    unfold count_path. simpl. lia.
Qed.

Lemma answer_loop_accounted l : forall s : sample F,
  accounted s (foldl answer_step s l) [] [] l 0.
Proof.
  induction l as [|fld l IH]; intros s; simpl.
  - apply accounted_refl.
  - apply (accounted_trans _ _ _ _ _ _ _ _ _ _ _
             (answer_step_accounted s fld) (IH _)).
Qed.

Lemma add_len_answer_accounted (s : sample F) :
  accounted s (add_len_answer s) [] [] [] (length (answer s)).
Proof.
  unfold accounted, add_len_answer, count_path.
  cbn [sc tp fp fn total_tp total_fn_or_fp error_info metric_info].
  rewrite !app_nil_r. simpl.
  repeat split; lia.
Qed.

(** The counters after the fields of a document, from the three lists. *)
Lemma match_fields_accounted (s0 : scorer F) pred answer0 :
  let m := match_fields s0 pred answer0 in
  total_tp (sc m) = (total_tp s0 + length (tp m))%nat
  /\ total_fn_or_fp (sc m) = (total_fn_or_fp s0 + length (fp m) + length (fn m))%nat
  /\ error_info (sc m) = error_info s0
  /\ forall name,
       field_tp name (metric_info (sc m))
       = (field_tp name (metric_info s0) + count_path name (tp m))%nat
       /\ field_fn_or_fp name (metric_info (sc m))
          = (field_fn_or_fp name (metric_info s0)
             + count_path name (fp m) + count_path name (fn m))%nat.
Proof.
  intros m. unfold m, match_fields.
  set (i := {| sc := s0; fp := []; fn := []; tp := []; answer := answer0 |}).
  destruct (pred_loop_accounted pred i) as (a & b & H1).
  set (s1 := foldl pred_step i pred) in *.
  pose proof (accounted_trans _ _ _ _ _ _ _ _ _ _ _
     (accounted_trans _ _ _ _ _ _ _ _ _ _ _ H1 (add_len_answer_accounted s1))
     (answer_loop_accounted (answer (add_len_answer s1)) (add_len_answer s1)))
    as Hall.
  subst i. unfold accounted in Hall.
  cbn [sc tp fp fn add_len_answer answer app] in Hall.
  rewrite !app_nil_r in Hall.
  destruct Hall as (E1 & E2 & E3 & E4 & E5 & E6 & E7).
  cbn [add_len_answer answer].
  rewrite E1, E2, E3, E4, E5, E6.
  repeat split; try lia.
  - apply (proj1 (E7 name)).
  - apply (proj2 (E7 name)).
Qed.

End Accounting.

(** ** Sorting, [Counter] and the formula *)

Section SortFacts.
Context {A : Type} (le : A -> A -> bool).

Lemma insert_by_Permutation x l : insert_by le x l ≡ₚ x :: l.
Proof.
  induction l as [|y l IH]; simpl; [done|].
  destruct (le x y); [done|]. rewrite IH. apply Permutation_swap.
Qed.

Lemma sorted_Permutation l : sorted le l ≡ₚ l.
Proof.
  induction l as [|x l IH]; simpl; [done|].
  rewrite insert_by_Permutation. by rewrite IH.
Qed.

Lemma sorted_of_Sorted l : Sorted (fun a b => le a b = true) l -> sorted le l = l.
Proof.
  induction 1 as [|x l Hs IH Hhd]; simpl; [done|].
  rewrite IH. destruct Hhd as [|y l Hxy]; simpl; [done|]. by rewrite Hxy.
Qed.

Lemma insert_by_Sorted x l :
  (forall a b, le a b = false -> le b a = true) ->
  Sorted (fun a b => le a b = true) l ->
  Sorted (fun a b => le a b = true) (insert_by le x l).
Proof.
  intros Htotal. induction 1 as [|y l Hs IH Hhd]; simpl.
  - by repeat constructor.
  - destruct (le x y) eqn:E.
    + by repeat constructor.
    + constructor; [done|].
      destruct Hhd as [|z l Hyz]; simpl.
      * constructor. auto.
      * destruct (le x z); constructor; auto.
Qed.

Lemma sorted_Sorted l :
  (forall a b, le a b = false -> le b a = true) ->
  Sorted (fun a b => le a b = true) (sorted le l).
Proof.
  intros Htotal. induction l as [|x l IH]; simpl; [constructor|].
  by apply insert_by_Sorted.
Qed.

End SortFacts.

Lemma Counter_loop l : forall (c : pydict nat) x,
  dict_get x
    (foldl (fun counter y => dict_set y (S (default 0%nat (dict_get y counter))) counter) c l)
  = match count x l with
    | O => dict_get x c
    | S n => Some (default 0%nat (dict_get x c) + S n)%nat
    end.
Proof.
  induction l as [|y l IH]; intros c x; simpl; [done|].
  rewrite IH, dict_get_set.
  destruct (decide (x = y)) as [->|Hne]; simpl.
  - destruct (count y l); f_equal; lia.
  - done.
Qed.

Lemma Counter_get l x :
  dict_get x (Counter l) = if decide (count x l = 0%nat) then None else Some (count x l).
Proof.
  unfold Counter. rewrite Counter_loop. simpl.
  destruct (count x l); [done|]. by rewrite decide_False by lia.
Qed.

Lemma Counter_keys l x : x ∈ keys (Counter l) -> x ∈ l.
Proof.
  intros Hin. destruct (decide (x ∈ l)) as [|Hn]; [done|].
  apply count_notin in Hn.
  assert (dict_get x (Counter l) = None) as Hg
    by (rewrite Counter_get; by rewrite decide_True).
  by apply dict_get_None in Hg.
Qed.

Lemma count_prefixed {V} (p : str) (l : list (str * V)) (x : str) :
  count (p ++ x) ((fun y : str * V => p ++ y.1) <$> l) = count_path x l.
Proof.
  unfold count_path. induction l as [|y l IH]; [done|].
  rewrite !fmap_cons. cbn [count]. rewrite IH.
  destruct (decide (x = y.1)) as [->|Hne].
  - by rewrite decide_True.
  - rewrite decide_False; [done|]. intros E. by apply app_inv_head in E.
Qed.




(** ** The matcher and scorer *)

Section ScorerFacts.
Context {F : Type} `{PyFloat F}.

Lemma normalize_dict_container (x : value F) :
  (exists l, normalize_dict x = VList l) \/ (exists d, normalize_dict x = VDict d).
Proof.
  destruct x as [s|l|items]; simpl.
  - left. eauto.
  - left. destruct (forallb is_dict l); eauto.
  - right. eauto.
Qed.

Lemma flatten_falsy (x : value F) :
  truthy (normalize_dict x) = false -> flatten (normalize_dict x) = [].
Proof.
  destruct (normalize_dict_container x) as [[l ->]|[d ->]]; simpl.
  - by destruct l.
  - by destruct d.
Qed.

Lemma pred_loop_no_answer pred : forall (s : sample F),
  answer s = [] ->
  let s' := foldl pred_step s pred in
  tp s' = tp s /\ fp s' = fp s ++ pred /\ answer s' = [].
Proof.
  induction pred as [|fld pred IH]; intros s Hs; simpl.
  - by rewrite app_nil_r.
  - assert (fld ∉ answer s) as Hn by (rewrite Hs; apply not_elem_of_nil).
    destruct (pred_step_miss s fld Hn) as (_ & _ & Et & Ef & _ & Ea).
    destruct (IH (pred_step s fld)) as (-> & -> & ->); [by rewrite Ea|].
    rewrite Et, Ef, <- app_assoc. done.
Qed.

Lemma match_fields_no_answer (s0 : scorer F) pred :
  let m := match_fields s0 pred [] in
  tp m = [] /\ fp m = pred /\ fn m = [].
Proof.
  intros m. destruct (match_fields_lists s0 pred []) as (Et & Ef & En).
  fold m in Et, Ef, En. rewrite Et, Ef, En.
  by destruct (pred_loop_no_answer pred
    {| sc := s0; fp := []; fn := []; tp := []; answer := [] |} eq_refl)
    as (-> & -> & ->).
Qed.

Lemma record_errors_counters file_name (m : sample F) :
  metric_info (record_errors file_name m) = metric_info (sc m)
  /\ total_tp (record_errors file_name m) = total_tp (sc m)
  /\ total_fn_or_fp (record_errors file_name m) = total_fn_or_fp (sc m).
Proof. unfold record_errors. by destruct (0 <? _)%nat. Qed.

Lemma score_document_preds (preds preds' : pydict (value F)) s doc :
  dict_get doc.1 preds = dict_get doc.1 preds' ->
  score_document preds s doc = score_document preds' s doc.
Proof. unfold score_document. by intros ->. Qed.

Lemma scoring_loop_preds (preds preds' : pydict (value F)) answers :
  (forall k, k ∈ keys answers -> dict_get k preds = dict_get k preds') ->
  scoring_loop preds answers = scoring_loop preds' answers.
Proof.
  unfold scoring_loop. generalize (@scorer_init F).
  induction answers as [|doc answers IH]; intros s Hk; simpl; [done|].
  rewrite (score_document_preds preds preds') by (apply Hk; left).
  apply IH. intros k Hin. apply Hk. by right.
Qed.

Lemma dict_get_del {V} (k k' : str) (d : pydict V) :
  k' <> k -> dict_get k' (dict_del k d) = dict_get k' d.
Proof.
  intros Hne. unfold dict_del.
  induction d as [|[k0 v0] d IH]; simpl; [done|].
  destruct (decide (k0 = k)) as [->|Hk].
  - rewrite bool_decide_eq_false_2 by (intros E; by apply E).
    by rewrite decide_False.
  - rewrite bool_decide_eq_true_2 by done. simpl. by rewrite IH.
Qed.

Lemma keys_record_errors file_name (m : sample F) k :
  k ∈ keys (error_info (record_errors file_name m)) ->
  k = file_name \/ k ∈ keys (error_info (sc m)).
Proof.
  unfold record_errors. destruct (0 <? _)%nat; [|by right].
  cbn [error_info]. rewrite keys_dict_set.
  destruct (decide _); [by right|].
  rewrite elem_of_app, list_elem_of_singleton. tauto.
Qed.

Lemma keys_error_info_loop (preds : pydict (value F)) answers : forall s k,
  k ∈ keys (error_info (foldl (score_document preds) s answers)) ->
  k ∈ keys answers \/ k ∈ keys (error_info s).
Proof.
  induction answers as [|doc answers IH]; intros s k; simpl; [by right|].
  intros Hin. apply IH in Hin as [Hin|Hin].
  - left. by right.
  - unfold score_document in Hin. apply keys_record_errors in Hin as [->|Hin].
    + left. left.
    + right. by rewrite (proj1 (proj2 (proj2 (match_fields_accounted _ _ _)))) in Hin.
Qed.

End ScorerFacts.

(** C1. The matching of a document is greedy and aware of duplicates. A
    predicted field found in what is left of the answer removes exactly one
    instance of it from the answer and is a true positive; a field not found
    leaves the answer as it is and is a false positive. Over a document,
    every [(path, value)] pair has [min(#pred, #answer)] true positives,
    [#pred - #answer] false positives and [#answer - #pred] false negatives.
    For [gt = {"items": ["a", "a"]}] and [pred = {"items": ["a"]}] there is
    exactly one true positive and one false negative. *)
Theorem greedy_duplicate_aware_matching :
  (forall (F : Type) (HF : PyFloat F) (s : sample F) (fld : str * scalar F),
     let s' := pred_step s fld in
     if decide (fld ∈ answer s) then
       answer s' = remove_first fld (answer s)
       /\ S (length (answer s')) = length (answer s)
       /\ (forall x, (count x (answer s') + if decide (x = fld) then 1 else 0)%nat
                     = count x (answer s))
       /\ tp s' = tp s ++ [fld] /\ fp s' = fp s
       /\ total_tp (sc s') = S (total_tp (sc s))
       /\ total_fn_or_fp (sc s') = total_fn_or_fp (sc s)
     else
       answer s' = answer s
       /\ tp s' = tp s /\ fp s' = fp s ++ [fld]
       /\ total_tp (sc s') = total_tp (sc s)
       /\ total_fn_or_fp (sc s') = S (total_fn_or_fp (sc s)))
  /\ (forall (F : Type) (HF : PyFloat F) (s0 : scorer F)
        (pred answer0 : list (str * scalar F)) (x : str * scalar F),
        let m := match_fields s0 pred answer0 in
        count x (tp m) = Nat.min (count x pred) (count x answer0)
        /\ count x (fp m) = (count x pred - count x answer0)%nat
        /\ count x (fn m) = (count x answer0 - count x pred)%nat)
  /\ (let s := scoring_loop [(lit "doc", scenario_c_pred)] [(lit "doc", scenario_c_gt)] in
      total_tp s = 1%nat /\ total_fn_or_fp s = 1%nat
      /\ exists r, dict_get (lit "doc") (error_info s) = Some r
           /\ se_tp r = [(lit "items", SStr (lit "a"))]
           /\ se_fn r = [(lit "items", SStr (lit "a"))]
           /\ se_fp r = []).
Proof.
  split; [|split].
  - intros F HF s fld s'. subst s'.
    destruct (decide (fld ∈ answer s)) as [Hin|Hin].
    + destruct (pred_step_hit s fld Hin) as (-> & -> & -> & -> & _ & ->).
      repeat split; try done.
      * by apply length_remove_first.
      * intros x. by apply count_remove_first.
    + destruct (pred_step_miss s fld Hin) as (-> & -> & -> & -> & _ & ->).
      done.
  - intros F HF s0 pred answer0 x. apply match_fields_counts.
  - vm_compute. repeat split. eexists. repeat split.
Qed.

(** C2, as the code has it. A document whose ground truth normalizes to an
    empty form adds nothing to [total_tp] and to the true positives of any
    field, and adds every field of its prediction, as a false positive, to
    [total_fn_or_fp] and to the counter of its path; it adds nothing at all
    when its prediction has no field either. *)
Theorem empty_ground_truth_contribution (F : Type) (HF : PyFloat F)
    (preds : pydict (value F)) (s : scorer F) (file_name : str) (gt : value F) :
  truthy (normalize_dict gt) = false ->
  let P := flatten (normalize_dict (default (VDict []) (dict_get file_name preds))) in
  let s' := score_document preds s (file_name, gt) in
  total_tp s' = total_tp s
  /\ total_fn_or_fp s' = (total_fn_or_fp s + length P)%nat
  /\ (forall name,
        field_tp name (metric_info s') = field_tp name (metric_info s)
        /\ field_fn_or_fp name (metric_info s')
           = (field_fn_or_fp name (metric_info s) + count_path name P)%nat)
  /\ (P = [] -> s' = s).
Proof.
  intros Hgt P s'. apply flatten_falsy in Hgt.
  assert (s' = record_errors file_name (match_fields s P [])) as Es'
    by (unfold s', score_document; cbn [fst snd]; by rewrite Hgt).
  destruct (record_errors_counters file_name (match_fields s P [])) as (Em & Et & En).
  destruct (match_fields_accounted s P []) as (At & An & _ & Af).
  destruct (match_fields_no_answer s P) as (Etp & Efp & Efn).
  rewrite Es', Em, Et, En, At, An. rewrite Etp, Efp, Efn in *. simpl.
  repeat split; try lia.
  - destruct (Af name) as [-> _]. unfold count_path. simpl. lia.
  - destruct (Af name) as [_ ->]. unfold count_path. simpl. lia.
  - intros ->. unfold record_errors, match_fields. simpl.
    destruct s; simpl. f_equal. lia.
Qed.

Lemma empty_ground_truth_contribution_witness :
  let s' := score_document [(lit "doc", one_field)] scorer_init (lit "doc", VDict []) in
  truthy (normalize_dict (VDict [] : value Empty_set)) = false
  /\ total_tp s' = 0%nat /\ total_fn_or_fp s' = 1%nat.
Proof.
  destruct (empty_ground_truth_contribution Empty_set _
              [(lit "doc", one_field)] scorer_init (lit "doc") (VDict []) eq_refl)
    as (Ht & Hn & _).
  split; [reflexivity|]. split; [exact Ht | exact Hn].
Defined.

(** C2 as stated fails: with an empty ground truth and the prediction
    [{"a": "x"}], the document adds one to [total_fn_or_fp] and to the
    counter of the field [a]. *)
Lemma empty_ground_truth_counts_false_positives :
  let s' := score_document [(lit "doc", one_field)] scorer_init (lit "doc", VDict []) in
  truthy (normalize_dict (VDict [] : value Empty_set)) = false
  /\ total_fn_or_fp s' <> total_fn_or_fp (@scorer_init Empty_set)
  /\ field_fn_or_fp (lit "a") (metric_info s')
     <> field_fn_or_fp (lit "a") (metric_info (@scorer_init Empty_set)).
Proof. vm_compute. repeat split; discriminate. Qed.

(** C6. The loop runs over the documents of the ground truth only: a key
    of the predictions that the ground truth does not have changes no
    counter (the whole result is the one obtained without it) and never
    appears in the per-document error map. *)
Theorem prediction_only_document_ignored (F : Type) (HF : PyFloat F)
    (preds answers : pydict (value F)) (k : str) :
  k ∉ keys answers ->
  scoring_loop preds answers = scoring_loop (dict_del k preds) answers
  /\ cal_f1_all preds answers = cal_f1_all (dict_del k preds) answers
  /\ (k ∉ keys (error_info (scoring_loop preds answers)))
  /\ (k ∉ keys ((cal_f1_all preds answers).2)).
Proof.
  intros Hk.
  assert (scoring_loop preds answers = scoring_loop (dict_del k preds) answers) as E.
  { apply scoring_loop_preds. intros k' Hin. symmetry. apply dict_get_del.
    intros ->. done. }
  assert (k ∉ keys (error_info (scoring_loop preds answers))) as Hn.
  { intros Hin. apply keys_error_info_loop in Hin as [Hin|Hin]; [done|].
    by apply elem_of_nil in Hin. }
  split; [done|]. split; [by unfold cal_f1_all; rewrite E|]. split; [done|].
  unfold cal_f1_all, sorted_desc, keys. cbn [snd].
  by rewrite sorted_Permutation.
Qed.

Lemma prediction_only_document_ignored_witness :
  (lit "extra" ∉ keys [(lit "doc", scenario_c_gt)])
  /\ scoring_loop [(lit "extra", one_field); (lit "doc", scenario_c_pred)]
       [(lit "doc", scenario_c_gt)]
     = scoring_loop [(lit "doc", scenario_c_pred)] [(lit "doc", scenario_c_gt)].
Proof.
  assert (lit "extra" ∉ keys [(lit "doc", scenario_c_gt)]) as Hk.
  { vm_compute. intros Hin. apply list_elem_of_singleton in Hin. discriminate Hin. }
  split; [exact Hk|].
  apply (prediction_only_document_ignored Empty_set _
           [(lit "extra", one_field); (lit "doc", scenario_c_pred)]
           [(lit "doc", scenario_c_gt)] (lit "extra") Hk).
Defined.


(** C9, as the code has it. A document gets an entry in [error_info]
    exactly when it has a false positive or a false negative. The entry
    holds the three lists, [error_num = |fp| + |fn|], and a histogram that
    maps the key ["counter_" + path], for every path of a field of [fn] or
    [fp], to the number of these fields with that path; the histogram has
    no other key. *)
Theorem error_record_emission (F : Type) (HF : PyFloat F)
    (preds : pydict (value F)) (s : scorer F) (doc : str * value F) :
  let m := match_fields s
             (flatten (normalize_dict (default (VDict []) (dict_get doc.1 preds))))
             (flatten (normalize_dict doc.2)) in
  let s' := score_document preds s doc in
  if decide (fp m = [] /\ fn m = []) then error_info s' = error_info s
  else
    exists r,
      error_info s' = dict_set doc.1 r (error_info s)
      /\ dict_get doc.1 (error_info s') = Some r
      /\ se_fp r = fp m /\ se_fn r = fn m /\ se_tp r = tp m
      /\ se_error_num r = (length (fp m) + length (fn m))%nat
      /\ (0 < se_error_num r)%nat
      /\ (forall path,
            dict_get (lit "counter_" ++ path) (se_error_info r)
            = if decide (count_path path (fn m ++ fp m) = 0%nat) then None
              else Some (count_path path (fn m ++ fp m)))
      /\ Forall (fun k => exists path,
                   k = lit "counter_" ++ path /\ path ∈ (fn m ++ fp m).*1)
           (keys (se_error_info r)).
Proof.
  intros m s'. unfold s', score_document. fold m.
  pose proof (match_fields_accounted s
    (flatten (normalize_dict (default (VDict []) (dict_get doc.1 preds))))
    (flatten (normalize_dict doc.2))) as (_ & _ & Ee & _).
  fold m in Ee. unfold record_errors.
  destruct (decide (fp m = [] /\ fn m = [])) as [[Ef En]|Hne].
  - rewrite Ef, En. simpl. done.
  - assert (0 < length (fp m) + length (fn m))%nat as Hpos.
    { destruct (fp m) as [|? ?] eqn:Ef, (fn m) as [|? ?] eqn:En; simpl; try lia.
      destruct Hne. done. }
    rewrite (proj2 (Nat.ltb_lt _ _) Hpos). cbn [error_info]. rewrite Ee.
    eexists. split; [reflexivity|]. rewrite dict_get_set, decide_True by done.
    split; [reflexivity|]. cbn [se_fp se_fn se_tp se_error_num se_error_info].
    repeat split; try done.
    + intros path. rewrite Counter_get. unfold error_class_list.
      by rewrite count_prefixed.
    + apply Forall_forall. intros k Hin. apply Counter_keys in Hin.
      unfold error_class_list in Hin.
      apply list_elem_of_fmap in Hin as (x & -> & Hx).
      exists x.1. split; [done|]. by apply list_elem_of_fmap_2.
Qed.

(** C9 as stated fails on the keys of the histogram: for the ground truth
    [{"a": "x"}] and no prediction, the histogram has no entry for the path
    [a]; the count is under the key [counter_a]. *)
Lemma error_info_keys_are_prefixed :
  exists r,
    dict_get (lit "doc")
      (error_info (score_document [] (@scorer_init Empty_set) (lit "doc", one_field)))
    = Some r
    /\ se_fn r = [(lit "a", SStr (lit "x"))]
    /\ dict_get (lit "a") (se_error_info r) = None
    /\ dict_get (lit "counter_a") (se_error_info r) = Some 1%nat.
Proof. vm_compute. eexists. repeat split. Qed.

(** ** Stripping *)

Section StripFacts.
Context (p : N -> bool).

Lemma lstrip_by_idem s : lstrip_by p (lstrip_by p s) = lstrip_by p s.
Proof.
  induction s as [|c s IH]; simpl; [done|].
  destruct (p c) eqn:E; [done|]. simpl. by rewrite E.
Qed.

Lemma rstrip_by_idem s : rstrip_by p (rstrip_by p s) = rstrip_by p s.
Proof.
  induction s as [|c s IH]; simpl; [done|].
  destruct (rstrip_by p s) as [|d r] eqn:E.
  - destruct (p c) eqn:Ec; simpl; [done|]. by rewrite Ec.
  - change (rstrip_by p (c :: d :: r)) with
      (match rstrip_by p (d :: r) with
       | [] => if p c then [] else [c]
       | d' :: r' => c :: d' :: r'
       end).
    by rewrite IH.
Qed.

(** A string that does not start with a stripped character keeps its start
    when its end is stripped. *)
Lemma lstrip_by_rstrip_by s :
  lstrip_by p s = s -> lstrip_by p (rstrip_by p s) = rstrip_by p s.
Proof.
  destruct s as [|c s]; simpl; [done|].
  destruct (p c) eqn:E.
  - intros Hs. exfalso.
    assert (length (lstrip_by p s) <= length s)%nat as Hle.
    { clear. induction s as [|d s IH]; simpl; [lia|]. destruct (p d); simpl; lia. }
    rewrite Hs in Hle. simpl in Hle. lia.
  - intros _. destruct (rstrip_by p s); simpl; by rewrite E.
Qed.

Lemma strip_by_idem s : strip_by p (strip_by p s) = strip_by p s.
Proof.
  unfold strip_by.
  rewrite (lstrip_by_rstrip_by (lstrip_by p s)) by apply lstrip_by_idem.
  apply rstrip_by_idem.
Qed.






End StripFacts.

Lemma strip_idem s : strip (strip s) = strip s.
Proof. apply strip_by_idem. Qed.

Lemma str_bool_true s : str_bool s = true <-> s <> [].
Proof. by destruct s. Qed.

(** ** Lists of scalars *)

Section ListBranch.
Context {F : Type} `{PyFloat F}.

Lemma omap_scalar_item (l : list (value F)) :
  omap scalar_item l
  = (fun s => VStr (strip (py_str s)))
      <$> List.filter (fun s => type_in_str_int_float s && str_bool (strip (py_str s)))
            (scalars_of l).
Proof.
  unfold scalars_of. induction l as [|v l IH]; [done|].
  destruct v as [s| |]; cbn [omap list_omap scalar_item]; rewrite IH; [|done|done].
  cbn [List.filter].
  by destruct (type_in_str_int_float s && str_bool (strip (py_str s))).
Qed.

Lemma elem_of_scalars_of (l : list (value F)) s : s ∈ scalars_of l <-> VScalar s ∈ l.
Proof.
  unfold scalars_of. rewrite list_elem_of_omap. split.
  - intros (v & Hin & Hv). destruct v; simplify_eq. done.
  - intros Hin. by exists (VScalar s).
Qed.

Lemma forallb_is_dict_false (l : list (value F)) :
  (exists item, item ∈ l /\ is_dict item = false) -> forallb is_dict l = false.
Proof.
  intros (item & Hin & Hd). apply not_true_is_false. intros Hall.
  rewrite forallb_forall in Hall. apply list_elem_of_In in Hin.
  rewrite (Hall _ Hin) in Hd. discriminate.
Qed.

End ListBranch.

(** C5. A list with an element that is not a dict, in particular a list that
    mixes dicts and scalars, is normalized by the branch of the scalar
    lists: the result is, in order, the trimmed [str()] of the elements of
    type [str], [int] or [float] whose trimmed text is not empty; the dicts
    are dropped, as are the elements of any other type, and nothing else
    appears. *)
Theorem mixed_list_keeps_scalars_only (F : Type) (HF : PyFloat F)
    (l : list (value F)) :
  (exists item, item ∈ l /\ is_dict item = false) ->
  exists r,
    normalize_dict (VList l) = VList r
    /\ r = (fun s => VStr (strip (py_str s)))
             <$> List.filter
                   (fun s => type_in_str_int_float s && str_bool (strip (py_str s)))
                   (scalars_of l)
    /\ Forall (fun v => is_dict v = false
                        /\ exists t, v = VStr t /\ t <> [] /\ strip t = t) r
    /\ (forall t, VStr t ∈ r <->
          exists s, VScalar s ∈ l /\ type_in_str_int_float s = true
                    /\ t = strip (py_str s) /\ t <> []).
Proof.
  intros Hmix. apply forallb_is_dict_false in Hmix.
  eexists. split; [by simpl; rewrite Hmix|].
  split; [apply omap_scalar_item|]. rewrite omap_scalar_item. split.
  - apply Forall_fmap, Forall_forall. intros s Hin.
    apply list_elem_of_In, filter_In in Hin as [_ Hs].
    apply andb_prop in Hs as [_ Hs]. simpl. split; [done|].
    eexists. split; [done|]. split; [by apply str_bool_true | apply strip_idem].
  - intros t. rewrite list_elem_of_fmap. split.
    + intros (s & [= ->] & Hin).
      apply list_elem_of_In, filter_In in Hin as [Hin Hs].
      apply andb_prop in Hs as [Hty Hs].
      exists s. rewrite <- elem_of_scalars_of, list_elem_of_In.
      repeat split; try done. by apply str_bool_true.
    + intros (s & Hin & Hty & -> & Hne). exists s. split; [done|].
      apply list_elem_of_In, filter_In. split.
      * by apply list_elem_of_In, elem_of_scalars_of.
      * rewrite Hty. by apply str_bool_true.
Qed.

Lemma mixed_list_keeps_scalars_only_witness :
  let l : list (value Empty_set) :=
    [one_field; VStr (lit " b "); VInt 7; VScalar (SBool true); VStr (lit " ")] in
  (exists item, item ∈ l /\ is_dict item = false)
  /\ normalize_dict (VList l) = VList [VStr (lit "b"); VStr (lit "7")].
Proof.
  intros l.
  assert (exists item, item ∈ l /\ is_dict item = false) as Hmix.
  { exists (VInt 7). split; [|reflexivity]. do 2 right. left. }
  split; [exact Hmix|].
  destruct (mixed_list_keeps_scalars_only Empty_set _ l Hmix) as (r & Hr & -> & _).
  exact Hr.
Defined.

(** ** The orchestrator *)



Section RecordFacts.
Context {F : Type} `{PyFloat F}.
Implicit Types (items : pydict (value F)).








End RecordFacts.



(** ** The text normalizer *)

Section TextFacts.
Implicit Types (s t pat : str) (c : N).





















End TextFacts.




(** ** The order of the keys *)

Lemma str_leb_total a : forall b, str_leb a b = false -> str_leb b a = true.
Proof.
  induction a as [|x a IH]; intros [|y b]; simpl; try done.
  rewrite orb_false_iff, andb_false_iff, orb_true_iff, andb_true_iff.
  rewrite N.ltb_ge, N.ltb_lt, !N.eqb_eq, N.eqb_neq.
  intros [Hle [Hne|Hs]]; [left; lia|].
  destruct (decide (x = y)) as [->|]; [right; auto | left; lia].
Qed.

Lemma str_leb_trans a : forall b c,
  str_leb a b = true -> str_leb b c = true -> str_leb a c = true.
Proof.
  induction a as [|x a IH]; intros [|y b] [|z c]; simpl; try done.
  rewrite !orb_true_iff, !andb_true_iff, !N.ltb_lt, !N.eqb_eq.
  intros [H1|[-> H1]] [H2|[-> H2]]; try (left; lia). right. eauto.
Qed.

Lemma key_leb_total a b : key_leb a b = false -> key_leb b a = true.
Proof.
  unfold key_leb.
  rewrite orb_false_iff, andb_false_iff, orb_true_iff, andb_true_iff.
  rewrite Nat.ltb_ge, Nat.ltb_lt, Nat.eqb_eq, Nat.eqb_neq.
  intros [Hle [Hne|Hs]]; [left; lia|].
  destruct (decide (length a = length b)) as [E|]; [|left; lia].
  right. split; [done|]. by apply str_leb_total.
Qed.

Lemma key_leb_transitive : Transitive (fun a b => key_leb a b = true).
Proof.
  intros a b c. unfold key_leb.
  rewrite !orb_true_iff, !andb_true_iff, !Nat.ltb_lt, !Nat.eqb_eq.
  intros [H1|[E1 H1]] [H2|[E2 H2]]; try (left; lia).
  right. split; [lia|]. by eapply str_leb_trans.
Qed.

Lemma sorted_keys_StronglySorted (l : list str) :
  StronglySorted (fun a b => key_leb a b = true) (sorted key_leb l).
Proof.
  apply Sorted_StronglySorted; [exact key_leb_transitive|].
  apply sorted_Sorted, key_leb_total.
Qed.

Lemma Sorted_snoc_all {A} (R : relation A) l x :
  Sorted R l -> (forall a, a ∈ l -> R a x) -> Sorted R (l ++ [x]).
Proof.
  induction 1 as [|y l Hs IH Hhd]; intros Hall; simpl.
  - by repeat constructor.
  - constructor.
    + apply IH. intros a Ha. apply Hall. by right.
    + destruct Hhd as [|z l Hyz]; simpl; constructor; [|done].
      apply Hall. left.
Qed.

(** ** The loop over the keys of a dict *)

Section KeyLoop.
Context {F : Type} `{PyFloat F}.
Implicit Types (nd acc : pydict (value F)) (k : str) (v : value F).

Lemma elem_of_dict_set k v k' v' acc :
  (k', v') ∈ dict_set k v acc -> (k' = k /\ v' = v) \/ (k', v') ∈ acc.
Proof.
  induction acc as [|[k0 v0] acc IH]; simpl.
  - rewrite list_elem_of_singleton. intros [= -> ->]. by left.
  - destruct (decide (k = k0)) as [->|Hne]; rewrite !elem_of_cons.
    + intros [[= -> ->]|Hin]; [by left | by right; right].
    + intros [[= -> ->]|Hin]; [by right; left|].
      apply IH in Hin as [?|?]; [by left | by right; right].
Qed.

Lemma normalize_key_cases nd acc k :
  normalize_key nd acc k = acc
  \/ exists v0, dict_get k nd = Some v0 /\ truthy v0 = true
       /\ normalize_key nd acc k
          = dict_set k (if is_list v0 then v0 else VList [v0]) acc.
Proof.
  unfold normalize_key. destruct (dict_get k nd) as [v0|]; [|by left].
  destruct (truthy v0) eqn:E; [|by left]. right. by exists v0.
Qed.

Lemma normalize_key_keys nd acc k :
  keys (normalize_key nd acc k) = keys acc
  \/ ((k ∉ keys acc) /\ keys (normalize_key nd acc k) = keys acc ++ [k]).
Proof.
  destruct (normalize_key_cases nd acc k) as [->|(v0 & _ & _ & ->)]; [by left|].
  rewrite keys_dict_set. destruct (decide (k ∈ keys acc)); [by left | by right].
Qed.

Lemma key_loop_NoDup nd ks : forall acc,
  NoDup (keys acc) -> NoDup (keys (foldl (normalize_key nd) acc ks)).
Proof.
  induction ks as [|k ks IH]; intros acc Hnd; simpl; [done|].
  apply IH. destruct (normalize_key_keys nd acc k) as [->|[Hk ->]]; [done|].
  apply NoDup_app. split; [done|]. split; [|apply NoDup_singleton].
  intros a Ha ->%list_elem_of_singleton. done.
Qed.

Lemma key_loop_Sorted nd ks : forall acc,
  StronglySorted (fun a b => key_leb a b = true) ks ->
  Sorted (fun a b => key_leb a b = true) (keys acc) ->
  (forall a k, a ∈ keys acc -> k ∈ ks -> key_leb a k = true) ->
  Sorted (fun a b => key_leb a b = true) (keys (foldl (normalize_key nd) acc ks)).
Proof.
  induction ks as [|k ks IH]; intros acc Hks Hs Hb; simpl; [done|].
  apply StronglySorted_inv in Hks as [Hks Hk]. rewrite Forall_forall in Hk.
  destruct (normalize_key_keys nd acc k) as [E|[_ E]].
  - apply IH; [done|by rewrite E|]. rewrite E. intros a k' Ha Hk'.
    apply Hb; [done|by right].
  - apply IH; [done| |]; rewrite E.
    + apply Sorted_snoc_all; [done|]. intros a Ha. apply Hb; [done|left].
    + intros a k' [Ha| ->%list_elem_of_singleton]%elem_of_app Hk'.
      * apply Hb; [done|by right].
      * by apply Hk.
Qed.

Lemma key_loop_values nd ks (Q : str -> value F -> Prop) : forall acc,
  (forall k v0, dict_get k nd = Some v0 -> truthy v0 = true ->
     Q k (if is_list v0 then v0 else VList [v0])) ->
  (forall k v, (k, v) ∈ acc -> Q k v) ->
  forall k v, (k, v) ∈ foldl (normalize_key nd) acc ks -> Q k v.
Proof.
  induction ks as [|k0 ks IH]; intros acc Hq Hacc; simpl; [done|].
  apply IH; [done|]. intros k v Hin.
  destruct (normalize_key_cases nd acc k0) as [E|(v0 & Hg & Ht & E)];
    rewrite E in Hin; [by apply Hacc|].
  apply elem_of_dict_set in Hin as [[-> ->]|Hin]; [by apply Hq | by apply Hacc].
Qed.

Lemma dict_get_fmap_middle (f : value F -> value F) pre k v suf :
  k ∉ keys pre ->
  dict_get k ((fun kv => (kv.1, f kv.2)) <$> (pre ++ (k, v) :: suf)) = Some (f v).
Proof.
  unfold keys. induction pre as [|[k0 v0] pre IH]; simpl.
  - intros _. by rewrite decide_True.
  - rewrite not_elem_of_cons. intros [Hne Hin].
    rewrite decide_False by done. auto.
Qed.

(** A dict whose values the function [f] maps (once wrapped) to themselves
    is rebuilt as it is by the loop over its keys. *)
Lemma key_loop_rebuild (f : value F -> value F) (new : pydict (value F)) :
  NoDup (keys new) ->
  (forall k v, (k, v) ∈ new ->
     truthy (f v) = true /\ (if is_list (f v) then f v else VList [f v]) = v) ->
  foldl (normalize_key ((fun kv => (kv.1, f kv.2)) <$> new)) [] (keys new) = new.
Proof.
  intros Hnd Hfix.
  enough (forall suf pre, new = pre ++ suf ->
            foldl (normalize_key ((fun kv => (kv.1, f kv.2)) <$> new)) pre (keys suf)
            = new) as Hgen by (by apply (Hgen new [])).
  induction suf as [|[k v] suf IH]; intros pre E; simpl.
  - by rewrite E, app_nil_r.
  - assert (k ∉ keys pre) as Hk.
    { rewrite E in Hnd. unfold keys in *. rewrite fmap_app in Hnd.
      apply NoDup_app in Hnd as (_ & Hd & _). intros Hin.
      apply (Hd k Hin). rewrite fmap_cons. left. }
    destruct (Hfix k v) as [Ht Hw]; [rewrite E, elem_of_app; right; left|].
    unfold normalize_key at 2. rewrite E at 2.
    rewrite dict_get_fmap_middle, Ht, Hw by done.
    rewrite dict_set_fresh by done.
    apply IH. by rewrite E, <- app_assoc.
Qed.

End KeyLoop.

(** ** The structure normalizer *)

Section NormalizeFacts.
Context {F : Type} `{PyFloat F}.
Implicit Types (x y v : value F) (l : list (value F)).

Lemma normalize_dict_is_dict x : is_dict x = true -> is_dict (normalize_dict x) = true.
Proof. by destruct x. Qed.

(** A value [normalize_dict] returns and leaves as it is, wrapped as the
    value of a key, is left as it is again. *)
Lemma normalize_wrapped y :
  (exists x, y = normalize_dict x) -> normalize_dict y = y -> truthy y = true ->
  let w := if is_list y then y else VList [y] in
  truthy (normalize_dict w) = true
  /\ (if is_list (normalize_dict w) then normalize_dict w
      else VList [normalize_dict w]) = w.
Proof.
  intros [x ->] Hfix Ht.
  destruct (normalize_dict_container x) as [[l E]|[d E]]; rewrite E in *;
    cbn [is_list].
  - rewrite Hfix. done.
  - change (normalize_dict (VList [VDict d]))
      with (VList (List.filter truthy [normalize_dict (VDict d)])).
    rewrite Hfix. cbn [List.filter]. rewrite Ht. done.
Qed.

Lemma scalar_item_fixed l :
  Forall (fun v => exists t, v = VStr t /\ t <> [] /\ strip t = t) l ->
  omap scalar_item l = l.
Proof.
  induction 1 as [|v l (t & -> & Hne & Hs) Hl IH]; [done|].
  cbn [omap list_omap scalar_item py_str type_in_str_int_float]. rewrite IH, Hs.
  by destruct t.
Qed.

Lemma scalar_items_are_strings l :
  Forall (fun v => exists t, v = VStr t /\ t <> [] /\ strip t = t)
    (omap scalar_item l).
Proof.
  rewrite omap_scalar_item. apply Forall_fmap, Forall_forall. intros s Hin.
  apply list_elem_of_In, filter_In in Hin as [_ [_ Hs]%andb_prop].
  eexists. split; [done|]. split; [by apply str_bool_true | apply strip_idem].
Qed.

Lemma normalize_list_of_dicts l :
  forallb is_dict l = true ->
  Forall (fun v => no_blank_scalar v = true ->
                   normalize_dict (normalize_dict v) = normalize_dict v) l ->
  forallb no_blank_scalar l = true ->
  let r := List.filter truthy (normalize_dict <$> l) in
  forallb is_dict r = true /\ List.filter truthy (normalize_dict <$> r) = r.
Proof.
  intros Hd IH Hb. induction l as [|v l IHl]; [done|].
  cbn [forallb] in Hd, Hb.
  apply andb_prop in Hd as [Hv Hd]. apply andb_prop in Hb as [Hbv Hb].
  apply Forall_cons in IH as [IHv IH].
  destruct (IHl Hd IH Hb) as [Hr1 Hr2].
  rewrite fmap_cons. cbn [List.filter].
  destruct (truthy (normalize_dict v)) eqn:Et; [|done].
  cbn [forallb]. rewrite fmap_cons. cbn [List.filter].
  rewrite (IHv Hbv), Et, Hr1, Hr2, (normalize_dict_is_dict v Hv). done.
Qed.

(** The idempotence of [normalize_dict], where no scalar it wraps on its
    own has a blank text. *)
Lemma normalize_dict_fixed x :
  no_blank_scalar x = true ->
  normalize_dict (normalize_dict x) = normalize_dict x.
Proof.
  induction x as [s|l IH|items IH] using value_ind'; intros Hb.
  - cbn [no_blank_scalar] in Hb. apply str_bool_true in Hb.
    cbn [normalize_dict forallb is_dict]. cbv [andb].
    rewrite scalar_item_fixed; [done|].
    repeat constructor. eexists. split; [done|]. split; [done | apply strip_idem].
  - cbn [no_blank_scalar] in Hb. cbn [normalize_dict].
    destruct (forallb is_dict l) eqn:Hd.
    + destruct (normalize_list_of_dicts l Hd IH Hb) as [Hr1 Hr2].
      cbn [normalize_dict]. by rewrite Hr1, Hr2.
    + pose proof (scalar_items_are_strings l) as Hs.
      cbn [normalize_dict].
      destruct (omap scalar_item l) as [|v r] eqn:Er; [done|].
      assert (forallb is_dict (v :: r) = false) as ->.
      { apply Forall_cons in Hs as [(t & -> & _) _]. done. }
      by rewrite scalar_item_fixed.
  - cbn [no_blank_scalar] in Hb. cbn [normalize_dict].
    set (nd := (fun kv => (kv.1, normalize_dict kv.2)) <$> items).
    set (new := foldl (normalize_key nd) [] (sorted key_leb (keys items))).
    cbn [normalize_dict]. f_equal.
    assert (sorted key_leb (keys new) = keys new) as ->.
    { apply sorted_of_Sorted, key_loop_Sorted.
      - apply sorted_keys_StronglySorted.
      - constructor.
      - intros a k Ha. by apply elem_of_nil in Ha. }
    apply key_loop_rebuild.
    + apply key_loop_NoDup. constructor.
    + apply (key_loop_values nd (sorted key_leb (keys items))
               (fun k v =>
                  truthy (normalize_dict v) = true
                  /\ (if is_list (normalize_dict v) then normalize_dict v
                      else VList [normalize_dict v]) = v) []).
      * intros k v0 Hg Ht. apply dict_get_Some_elem in Hg.
        apply list_elem_of_fmap in Hg as ([k' x] & Heq & Hin).
        cbn [fst snd] in Heq. injection Heq as Hk Hv. subst k v0.
        apply normalize_wrapped; [by eexists| |done].
        rewrite Forall_forall in IH. apply (IH _ Hin).
        rewrite forallb_forall in Hb. apply (Hb (k', x)). by apply list_elem_of_In.
      * intros k v Hin. by apply elem_of_nil in Hin.
Qed.

End NormalizeFacts.

(** C3, as the code has it. [normalize_dict] is idempotent on every tree in
    which no scalar that the function wraps on its own (the root, or the
    value of a key, through dicts and lists of dicts) has a blank text. *)
Theorem normalize_dict_idempotent_without_blank_scalars (F : Type) (HF : PyFloat F)
    (x : value F) :
  no_blank_scalar x = true ->
  normalize_dict (normalize_dict x) = normalize_dict x.
Proof. apply normalize_dict_fixed. Qed.

Lemma normalize_dict_idempotent_without_blank_scalars_witness :
  no_blank_scalar scenario_c_gt = true
  /\ normalize_dict (normalize_dict scenario_c_gt) = normalize_dict scenario_c_gt.
Proof.
  split; [reflexivity|].
  apply (normalize_dict_idempotent_without_blank_scalars Empty_set _ scenario_c_gt).
  reflexivity.
Defined.

(** C3 as stated fails: the dict whose key [a] holds the empty string
    normalizes to a dict whose key [a] holds the list of the empty string,
    which normalizes to the empty dict. *)
Lemma normalize_dict_not_idempotent :
  normalize_dict blank_field = VDict [(lit "a", VList [VStr []])]
  /\ normalize_dict (normalize_dict blank_field) = VDict []
  /\ normalize_dict (normalize_dict blank_field) <> normalize_dict blank_field.
Proof. vm_compute. repeat split. discriminate. Qed.
